(** * generate_randoms.py: a shallow embedding and its verification

    The script draws four integers with [secrets.randbelow(10000)], prints
    them on one line separated by spaces, and writes them separated by
    commas to [output.txt] inside a [with open(..., 'w')] block.

    The script is a straight line of calls into the interpreter's runtime,
    so the embedding is a state-and-exception monad over a [World] that
    holds what those calls touch: the random source, standard output, the
    file system, the table of file objects, and a chronological log of the
    calls that were made. *)

From Stdlib Require Import ZArith String Ascii List Lia Bool.
From Stdlib Require Import DecimalString DecimalZ DecimalFacts.
From stdpp Require Import gmap strings.

Open Scope Z_scope.
Open Scope string_scope.

#[local] Arguments String.append : simpl nomatch.

(** ** Exceptions *)

(** The exceptions the runtime calls of the script can raise.  [OSError]
    carries its [errno]; [PermissionError] is [OSError] with [EACCES]. *)
Inductive exn : Type :=
| OSError (errno : Z)
| NotImplementedError
| ValueError.

Definition EACCES : Z := 13.
Definition EIO : Z := 5.

(** ** Strings *)

(** [str(int)], which is what an f-string field [{x}] produces for an
    integer: decimal digits, a leading [-] for negative numbers. *)
Definition str_int (z : Z) : string := NilZero.string_of_int (Z.to_int z).

(** [int(s)] for a decimal literal. *)
Definition int_of_str (s : string) : option Z :=
  option_map Z.of_int (NilZero.int_of_string s).

Fixpoint take (n : nat) (s : string) : string :=
  match n, s with
  | S n', String c s' => String c (take n' s')
  | _, _ => ""
  end.

Fixpoint drop (n : nat) (s : string) : string :=
  match n, s with
  | S n', String _ s' => drop n' s'
  | _, _ => s
  end.

Definition newline : string := String (ascii_of_nat 10) "".

Definition is_empty (s : string) : bool :=
  match s with "" => true | _ => false end.

(** ** The world *)

(** A file on disk. *)
Record file : Type := File { content : string; writable : bool }.

(** A file object returned by [open]: the path it writes to, the text
    buffered and not yet handed to the device, and whether it is closed. *)
Record handle : Type := Handle { h_path : string; h_buf : string; h_closed : bool }.

(** One entry of the log per runtime call, with its outcome. *)
Inductive event : Type :=
| EvRandbelow (n : Z) (r : exn + Z)
| EvPrint (s : string)
| EvOpen (path : string) (r : exn + nat)
| EvWrite (fd : nat) (data : string) (r : exn + unit)
| EvClose (fd : nat) (r : exn + unit).

Section Program.

(** The random source behind [secrets.randbelow]: a state [R] (the
    operating system's entropy) and the call itself, which either raises
    or returns an integer. *)
Context {R : Type}.
Variable randbelow_impl : Z -> R -> (exn + Z) * R.

Record World : Type := MkWorld {
  rng : R;
  stdout : string;
  fs : gmap string file;          (* the current working directory *)
  dir_writable : bool;            (* may entries be created in it *)
  dev_accepts : nat;              (* bytes the device takes before it fails *)
  bufsize : nat;                  (* capacity of a file object's buffer *)
  handles : list handle;          (* file objects, in order of creation *)
  log : list event
}.

Definition set_rng (g : R) (w : World) : World :=
  MkWorld g (stdout w) (fs w) (dir_writable w) (dev_accepts w) (bufsize w) (handles w) (log w).
Definition set_stdout (s : string) (w : World) : World :=
  MkWorld (rng w) s (fs w) (dir_writable w) (dev_accepts w) (bufsize w) (handles w) (log w).
Definition set_fs (m : gmap string file) (w : World) : World :=
  MkWorld (rng w) (stdout w) m (dir_writable w) (dev_accepts w) (bufsize w) (handles w) (log w).
Definition set_dev_accepts (n : nat) (w : World) : World :=
  MkWorld (rng w) (stdout w) (fs w) (dir_writable w) n (bufsize w) (handles w) (log w).
Definition set_handles (h : list handle) (w : World) : World :=
  MkWorld (rng w) (stdout w) (fs w) (dir_writable w) (dev_accepts w) (bufsize w) h (log w).
Definition emit (e : event) (w : World) : World :=
  MkWorld (rng w) (stdout w) (fs w) (dir_writable w) (dev_accepts w) (bufsize w) (handles w)
          (log w ++ [e]).

(** ** The monad: state that survives a raised exception *)

Definition M (A : Type) : Type := World -> (exn + A) * World.

Definition ret {A} (a : A) : M A := fun w => (inr a, w).
Definition bind {A B} (m : M A) (k : A -> M B) : M B :=
  fun w => match m w with
           | (inl e, w') => (inl e, w')
           | (inr a, w') => k a w'
           end.

Notation "x <- m ;; k" := (bind m (fun x => k))
  (at level 100, m at next level, right associativity).
Notation "m ;;; k" := (bind m (fun _ => k))
  (at level 100, right associativity).

(** ** Runtime calls *)

(** [secrets.randbelow(n)]. *)
Definition secrets_randbelow (n : Z) : M Z := fun w =>
  let (r, g) := randbelow_impl n (rng w) in
  (r, emit (EvRandbelow n r) (set_rng g w)).

(** [print(s)]: the text and the default [end], a newline.  Standard
    output is a stream that takes what is written to it. *)
Definition print (s : string) : M unit := fun w =>
  (inr tt, emit (EvPrint s) (set_stdout (stdout w ++ s ++ newline) w)).

(** Hand the buffer of [fd] to the device.  The device takes the first
    [dev_accepts] bytes; when that is not all of them, the rest stays in
    the buffer and [OSError] is raised. *)
Definition flush (fd : nat) : M unit := fun w =>
  match handles w !! fd with
  | Some (Handle path buf false) =>
      let done := take (dev_accepts w) buf in
      let rest := drop (dev_accepts w) buf in
      let w1 := set_fs (alter (fun f => File (content f ++ done) (writable f)) path (fs w)) w in
      let w2 := set_dev_accepts (dev_accepts w - String.length done)%nat w1 in
      let w3 := set_handles (<[fd := Handle path rest false]> (handles w)) w2 in
      if is_empty rest then (inr tt, w3) else (inl (OSError EIO), w3)
  | _ => (inl ValueError, w)
  end.

(** [open(path, 'w')]: an existing file must be writable and is truncated;
    a missing one is created when the directory allows it. *)
Definition open_w (path : string) : M nat := fun w =>
  let fd := length (handles w) in
  let opened m :=
    (inr fd, emit (EvOpen path (inr fd))
               (set_handles (handles w ++ [Handle path "" false]) (set_fs m w))) in
  let denied := (inl (OSError EACCES), emit (EvOpen path (inl (OSError EACCES))) w) in
  match fs w !! path with
  | Some f => if writable f then opened (<[path := File "" true]> (fs w)) else denied
  | None => if dir_writable w then opened (<[path := File "" true]> (fs w)) else denied
  end.

(** [f.write(data)]: the text goes to the buffer, which is flushed when it
    outgrows its capacity.  The count of characters that [write] returns
    is not used by the script and is left out. *)
Definition f_write (fd : nat) (data : string) : M unit := fun w =>
  match handles w !! fd with
  | Some (Handle path buf false) =>
      let w1 := set_handles (<[fd := Handle path (buf ++ data) false]> (handles w)) w in
      let (r, w2) :=
        if (String.length (buf ++ data) <=? bufsize w)%nat then (inr tt, w1) else flush fd w1 in
      (r, emit (EvWrite fd data r) w2)
  | _ => (inl ValueError, emit (EvWrite fd data (inl ValueError)) w)
  end.

(** [f.close()]: flush, then close whatever the flush did; closing a
    closed file does nothing. *)
Definition f_close (fd : nat) : M unit := fun w =>
  match handles w !! fd with
  | Some (Handle path buf false) =>
      let (r, w1) := flush fd w in
      (r, emit (EvClose fd r) (set_handles (<[fd := Handle path "" true]> (handles w1)) w1))
  | _ => (inr tt, w)
  end.

(** [with open(path, 'w') as f: body]: the file object's [__exit__] closes
    it whether the body returned or raised; an exception raised by the
    close replaces the one of the body. *)
Definition with_open {A} (path : string) (body : nat -> M A) : M A := fun w =>
  match open_w path w with
  | (inl e, w1) => (inl e, w1)
  | (inr fd, w1) =>
      match body fd w1 with
      | (inr a, w2) =>
          match f_close fd w2 with
          | (inl e, w3) => (inl e, w3)
          | (inr _, w3) => (inr a, w3)
          end
      | (inl e, w2) =>
          match f_close fd w2 with
          | (inl e', w3) => (inl e', w3)
          | (inr _, w3) => (inl e, w3)
          end
      end
  end.

(** ** The script *)

Definition main : M unit :=
  random_int1 <- secrets_randbelow 10000 ;;
  random_int2 <- secrets_randbelow 10000 ;;
  random_int3 <- secrets_randbelow 10000 ;;
  random_int4 <- secrets_randbelow 10000 ;;
  print (str_int random_int1 ++ " " ++ str_int random_int2 ++ " "
         ++ str_int random_int3 ++ " " ++ str_int random_int4) ;;;
  with_open "output.txt" (fun f =>
    f_write f (str_int random_int1 ++ "," ++ str_int random_int2 ++ ","
               ++ str_int random_int3 ++ "," ++ str_int random_int4)).

(** ** The process *)

(** What the process starts from: the environment it is launched in. *)
Record Env : Type := MkEnv {
  e_rng : R;
  e_fs : gmap string file;
  e_dir_writable : bool;
  e_dev_accepts : nat;
  e_bufsize : nat
}.

Definition boot (e : Env) : World :=
  MkWorld (e_rng e) "" (e_fs e) (e_dir_writable e) (e_dev_accepts e) (e_bufsize e) [] [].

(** The interpreter's exit status: 0 when the script runs to its end, 1
    when an exception reaches the top level. *)
Definition exit_status {A} (r : exn + A) : Z :=
  match r with inr _ => 0 | inl _ => 1 end.

Definition run (e : Env) : (exn + unit) * World := main (boot e).

End Program.

Arguments World R : clear implicits.
Arguments Env R : clear implicits.
Arguments M R A : clear implicits.
Arguments MkWorld {R}.
Arguments MkEnv {R}.

(** ** A replayed random source *)

(** A random source for test scenarios: the words the system generator
    would hand out are read from a tape.  As in the generator's rejection
    loop, a word outside [0, n) is discarded and the next one is tried;
    an exhausted tape stands for an operating system without entropy. *)
Fixpoint replay_randbelow (n : Z) (tape : list Z) : (exn + Z) * list Z :=
  match tape with
  | [] => (inl NotImplementedError, [])
  | r :: tape' =>
      if ((0 <=? r) && (r <? n))%Z then (inr r, tape') else replay_randbelow n tape'
  end.

(** The environment of the scenarios: a tape, one existing [output.txt]
    or none, and a device that takes [dev] bytes. *)
Definition scenario (tape : list Z) (old : option file) (dirw : bool) (dev buf : nat)
  : Env (list Z) :=
  MkEnv tape (match old with Some f => {["output.txt" := f]} | None => ∅ end) dirw dev buf.

(** ** Scenarios *)

(** A fresh directory, and a tape with words the rejection loop skips. *)
Definition env_fresh : Env (list Z) :=
  scenario [12000; 1234; -3; 0; 9999; 42] None true 8192 8192.

(** A directory where an earlier run left a longer [output.txt]. *)
Definition env_stale : Env (list Z) :=
  scenario [1234; 0; 9999; 42] (Some (File "9999,9999,9999,9999" true)) true 8192 8192.

(** As [env_stale], on a device that takes no byte. *)
Definition env_device_fails : Env (list Z) :=
  scenario [1234; 0; 9999; 42] (Some (File "9999,9999,9999,9999" true)) true 0 8192.

(** ** Vocabulary of the properties *)

(** The two renderings of four integers, as the script's f-strings build
    them. *)
Definition line_of (a b c d : Z) : string :=
  str_int a ++ " " ++ str_int b ++ " " ++ str_int c ++ " " ++ str_int d.

Definition csv_of (a b c d : Z) : string :=
  str_int a ++ "," ++ str_int b ++ "," ++ str_int c ++ "," ++ str_int d.

(** The integers the random source returned, in the order of the calls. *)
Fixpoint drawn (l : list event) : list Z :=
  match l with
  | [] => []
  | EvRandbelow _ (inr r) :: l' => r :: drawn l'
  | _ :: l' => drawn l'
  end.

(** The exception a runtime call ended with, if it raised. *)
Definition raised (ev : event) : option exn :=
  match ev with
  | EvRandbelow _ (inl x) | EvOpen _ (inl x) | EvWrite _ _ (inl x) | EvClose _ (inl x) => Some x
  | _ => None
  end.

Definition is_close (ev : event) : Prop :=
  match ev with EvClose _ _ => True | _ => False end.

Definition is_print (ev : event) : Prop :=
  match ev with EvPrint _ => True | _ => False end.

(** [randbelow(10000)] returning [r], as the log records it. *)
Definition ev_draw (r : Z) : event := EvRandbelow 10000 (inr r).

(** A call on the file that raised. *)
Definition file_failure (ev : event) : Prop :=
  match ev with
  | EvOpen _ (inl _) | EvWrite _ _ (inl _) | EvClose _ (inl _) => True
  | _ => False
  end.

(** A call on the file, whatever its outcome. *)
Definition is_file_event (ev : event) : Prop :=
  match ev with
  | EvOpen _ _ | EvWrite _ _ _ | EvClose _ _ => True
  | _ => False
  end.

(** The run had a failure on the file. *)
Definition file_write_failed (l : list event) : Prop := Exists file_failure l.

(** The outcome of flushing [data] to a device that takes [dev] bytes. *)
Definition flushed (dev : nat) (data : string) : exn + unit :=
  if (String.length data <=? dev)%nat then inr tt else inl (OSError EIO).

(** ** Numerals and separated lines *)

(** Whether a character occurs in a string. *)
Fixpoint occurs (c : ascii) (s : string) : bool :=
  match s with
  | "" => false
  | String c' s' => Ascii.eqb c c' || occurs c s'
  end.

(** A numeral has a leading zero when a [0] is followed by more text,
    directly or after the sign. *)
Definition leading_zero (s : string) : Prop :=
  exists s', s' <> "" /\ (s = String "0" s' \/ s = String "-" (String "0" s')).

Definition is_digit (c : ascii) : bool :=
  match c with
  | "0" | "1" | "2" | "3" | "4" | "5" | "6" | "7" | "8" | "9" => true
  | _ => false
  end%char.

Fixpoint all_digits (s : string) : bool :=
  match s with
  | "" => true
  | String c s' => is_digit c && all_digits s'
  end.

(** [sep.join(l)]. *)
Fixpoint join (sep : string) (l : list string) : string :=
  match l with
  | [] => ""
  | [s] => s
  | s :: l' => s ++ sep ++ join sep l'
  end.

(** [s.split(sep)] for a one-character separator. *)
Fixpoint split_on (sep : ascii) (s : string) : list string :=
  match s with
  | "" => [""]
  | String c s' =>
      if Ascii.eqb sep c then "" :: split_on sep s'
      else match split_on sep s' with
           | [] => [String c ""]
           | w :: ws => String c w :: ws
           end
  end.

(** Reading a separated line back into integers. *)
Definition decode (sep : ascii) (s : string) : list (option Z) :=
  map int_of_str (split_on sep s).

(** ** The shape of a run *)

Section Shape.

Context {R : Type}.
Variable randbelow_impl : Z -> R -> (exn + Z) * R.

(** The part of the script after the draws. *)
Definition outputs (a b c d : Z) : M R unit :=
  bind (print (line_of a b c d)) (fun _ =>
    with_open "output.txt" (fun f => f_write f (csv_of a b c d))).

(** Whether [open('output.txt', 'w')] is allowed in a world. *)
Definition can_open (w : World R) : bool :=
  match fs w !! "output.txt" with
  | Some f => writable f
  | None => dir_writable w
  end.

(** [chain g vals g']: from state [g], successive calls of
    [randbelow(10000)] return [vals] and leave the source in [g']. *)
Inductive chain : R -> list Z -> R -> Prop :=
| chain_nil g : chain g [] g
| chain_cons g r g1 vals g' :
    randbelow_impl 10000 g = (inr r, g1) ->
    chain g1 vals g' ->
    chain g (r :: vals) g'.

(** The world in which the script stands after its draws. *)
Definition after_draws (e : Env R) (g : R) (vals : list Z) : World R :=
  MkWorld g "" (e_fs e) (e_dir_writable e) (e_dev_accepts e) (e_bufsize e) []
          (map ev_draw vals).

(** Whether the environment lets the script open [output.txt]. *)
Definition env_can_open (e : Env R) : bool :=
  match e_fs e !! "output.txt" with
  | Some f => writable f
  | None => e_dir_writable e
  end.

(** The three ways a run can go, each with the world it ends in. *)
Inductive Outcome (e : Env R) : (exn + unit) * World R -> Prop :=
| out_entropy vals g x g' :
    (length vals < 4)%nat ->
    chain (e_rng e) vals g ->
    randbelow_impl 10000 g = (inl x, g') ->
    Outcome e
      (inl x,
       MkWorld g' "" (e_fs e) (e_dir_writable e) (e_dev_accepts e) (e_bufsize e) []
               (map ev_draw vals ++ [EvRandbelow 10000 (inl x)])%list)
| out_denied a b c d g :
    chain (e_rng e) [a; b; c; d] g ->
    env_can_open e = false ->
    Outcome e
      (inl (OSError EACCES),
       MkWorld g (line_of a b c d ++ newline) (e_fs e) (e_dir_writable e)
               (e_dev_accepts e) (e_bufsize e) []
               [ev_draw a; ev_draw b; ev_draw c; ev_draw d;
                EvPrint (line_of a b c d);
                EvOpen "output.txt" (inl (OSError EACCES))])
| out_opened a b c d g :
    chain (e_rng e) [a; b; c; d] g ->
    env_can_open e = true ->
    Outcome e
      (flushed (e_dev_accepts e) (csv_of a b c d),
       MkWorld g (line_of a b c d ++ newline)
               (<["output.txt" := File (take (e_dev_accepts e) (csv_of a b c d)) true]> (e_fs e))
               (e_dir_writable e)
               (e_dev_accepts e - String.length (take (e_dev_accepts e) (csv_of a b c d)))
               (e_bufsize e)
               [Handle "output.txt" "" true]
               [ev_draw a; ev_draw b; ev_draw c; ev_draw d;
                EvPrint (line_of a b c d);
                EvOpen "output.txt" (inr 0%nat);
                EvWrite 0 (csv_of a b c d)
                  (if (String.length (csv_of a b c d) <=? e_bufsize e)%nat
                   then inr tt else flushed (e_dev_accepts e) (csv_of a b c d));
                EvClose 0 (flushed (e_dev_accepts e) (csv_of a b c d))]).

(** The statement of C6 as the specification words it: after a failure
    on the file the process exits non-zero and [output.txt] is as it was
    before the run, or absent. *)
Definition failed_write_leaves_no_trace (e : Env R) : Prop :=
  file_write_failed (log (snd (run randbelow_impl e))) ->
  exit_status (fst (run randbelow_impl e)) <> 0 /\
  (fs (snd (run randbelow_impl e)) !! "output.txt" = e_fs e !! "output.txt" \/
   fs (snd (run randbelow_impl e)) !! "output.txt" = None).

(** The statement of C8 as the specification words it: when the process
    ends every file object is closed and its content flushed, that is,
    the text written through it is in the file. *)
Definition closed_and_flushed (e : Env R) : Prop :=
  Forall (fun h => h_closed h = true) (handles (snd (run randbelow_impl e))) /\
  (forall fd data r,
      In (EvWrite fd data r) (log (snd (run randbelow_impl e))) ->
      exists f, fs (snd (run randbelow_impl e)) !! "output.txt" = Some f /\
                content f = data).

End Shape.

(** ** Further scenarios *)

(** A source that runs out of entropy at the third draw. *)
Definition env_no_entropy : Env (list Z) :=
  scenario [1234; 0] (Some (File "old" true)) true 8192 8192.

(** The environment [e] with [f] as its [output.txt]. *)
Definition with_file {R : Type} (e : Env R) (f : file) : Env R :=
  MkEnv (e_rng e) (<["output.txt" := f]> (e_fs e)) (e_dir_writable e)
        (e_dev_accepts e) (e_bufsize e).

(** * Properties *)

(** ** Strings *)

Lemma append_empty_r (s : string) : s ++ "" = s.
Proof. induction s as [|c s IH]; simpl; [reflexivity | now rewrite IH]. Qed.

Lemma append_assoc (s t u : string) : (s ++ t) ++ u = s ++ t ++ u.
Proof. induction s as [|c s IH]; simpl; [reflexivity | now rewrite IH]. Qed.

Lemma take_drop (n : nat) (s : string) : take n s ++ drop n s = s.
Proof.
  revert s; induction n as [|n IH]; intros [|c s]; simpl; try reflexivity.
  now rewrite IH.
Qed.

Lemma take_length (n : nat) (s : string) :
  String.length (take n s) = Nat.min n (String.length s).
Proof.
  revert s; induction n as [|n IH]; intros [|c s]; simpl; try reflexivity.
  now rewrite IH.
Qed.

Lemma drop_empty_iff (n : nat) (s : string) :
  is_empty (drop n s) = (String.length s <=? n)%nat.
Proof.
  revert s; induction n as [|n IH]; intros [|c s]; simpl; try reflexivity.
  apply IH.
Qed.

Lemma take_all (n : nat) (s : string) :
  (String.length s <= n)%nat -> take n s = s.
Proof.
  revert s; induction n as [|n IH]; intros [|c s]; simpl; intros H;
    try reflexivity; try lia.
  now rewrite IH by lia.
Qed.

Lemma take_0 (s : string) : take 0 s = "".
Proof. now destruct s. Qed.

Lemma take_empty (n : nat) : take n "" = "".
Proof. now destruct n. Qed.

(** A second flush after a flush takes nothing more from the device. *)
Lemma take_after_take (n : nat) (s : string) :
  take (n - String.length (take n s)) (drop n s) = "".
Proof.
  rewrite take_length.
  destruct (Nat.le_gt_cases n (String.length s)) as [H|H].
  - rewrite Nat.min_l by lia. rewrite Nat.sub_diag. apply take_0.
  - assert (E : is_empty (drop n s) = true)
      by (rewrite drop_empty_iff; apply Nat.leb_le; lia).
    destruct (drop n s); [apply take_empty | discriminate].
Qed.

Lemma drop_after_take (n : nat) (s : string) :
  drop (n - String.length (take n s)) (drop n s) = drop n s.
Proof.
  rewrite <- (take_drop (n - String.length (take n s)) (drop n s)) at 2.
  now rewrite take_after_take.
Qed.

(** ** The output phase, symbolically *)

Ltac world_simpl :=
  unfold emit, set_rng, set_stdout, set_fs, set_dev_accepts, set_handles; cbn.

Section OutputPhase.

Context {R : Type}.
Implicit Types w : World R.

Lemma log_app4 (l : list event) (e1 e2 e3 e4 : event) :
  ((((l ++ [e1]) ++ [e2]) ++ [e3]) ++ [e4] = l ++ [e1; e2; e3; e4])%list.
Proof. now rewrite <- !app_assoc. Qed.

(** When the file cannot be opened the script stops there: the line is on
    standard output and the file system is as it was. *)
Lemma outputs_denied a b c d w :
  can_open w = false ->
  outputs a b c d w =
    (inl (OSError EACCES),
     MkWorld (rng w) (stdout w ++ line_of a b c d ++ newline) (fs w) (dir_writable w)
             (dev_accepts w) (bufsize w) (handles w)
             (log w ++ [EvPrint (line_of a b c d);
                        EvOpen "output.txt" (inl (OSError EACCES))])).
Proof.
  unfold can_open, outputs, bind, print, with_open, open_w.
  destruct w as [g out m dw dev buf hs l]; cbn. intros H.
  destruct (m !! "output.txt") as [f|]; rewrite H; world_simpl;
    now rewrite <- app_assoc.
Qed.

(** When the file can be opened it is truncated, receives what the device
    takes of the text, and is closed. *)
Lemma outputs_opened a b c d w :
  can_open w = true ->
  handles w = [] ->
  outputs a b c d w =
    (flushed (dev_accepts w) (csv_of a b c d),
     MkWorld (rng w) (stdout w ++ line_of a b c d ++ newline)
             (<["output.txt" := File (take (dev_accepts w) (csv_of a b c d)) true]> (fs w))
             (dir_writable w)
             (dev_accepts w - String.length (take (dev_accepts w) (csv_of a b c d)))
             (bufsize w)
             [Handle "output.txt" "" true]
             (log w ++ [EvPrint (line_of a b c d);
                        EvOpen "output.txt" (inr 0%nat);
                        EvWrite 0 (csv_of a b c d)
                          (if (String.length (csv_of a b c d) <=? bufsize w)%nat
                           then inr tt else flushed (dev_accepts w) (csv_of a b c d));
                        EvClose 0 (flushed (dev_accepts w) (csv_of a b c d))])).
Proof.
  destruct w as [g out m dw dev buf hs l]; cbn. intros Hopen ->.
  unfold can_open in Hopen. cbn in Hopen.
  unfold outputs, bind, print, with_open, open_w. cbn.
  set (data := csv_of a b c d).
  assert (Hop : forall X (x y : X),
             match m !! "output.txt" with
             | Some f => if writable f then x else y
             | None => if dw then x else y
             end = x).
  { intros X x y. destruct (m !! "output.txt"); now rewrite Hopen. }
  rewrite Hop. world_simpl.
  unfold f_write. world_simpl.
  destruct (String.length data <=? buf)%nat eqn:Hbuf; world_simpl.
  - unfold f_close, flush. world_simpl.
    rewrite drop_empty_iff. unfold flushed.
    destruct (String.length data <=? dev)%nat; world_simpl;
      now rewrite alter_insert_eq, log_app4.
  - unfold flush. world_simpl.
    rewrite drop_empty_iff. unfold flushed.
    destruct (String.length data <=? dev)%nat eqn:Hdev; world_simpl;
      unfold f_close, flush; world_simpl;
      rewrite drop_after_take, take_after_take, drop_empty_iff, Hdev;
      world_simpl; rewrite !alter_insert_eq; cbn;
      rewrite append_empty_r, Nat.sub_0_r, log_app4; reflexivity.
Qed.

End OutputPhase.

(** ** The draw phase, symbolically *)

Section DrawPhase.

Context {R : Type}.
Variable randbelow_impl : Z -> R -> (exn + Z) * R.

Ltac chain_solve :=
  repeat (eapply chain_cons; [eassumption |]); apply chain_nil.

Ltac draws_step :=
  repeat (unfold bind at 1, secrets_randbelow at 1; world_simpl;
          match goal with
          | H : randbelow_impl _ ?g = _ |- context [randbelow_impl _ ?g] => rewrite H
          end; world_simpl).

(** Either one of the four draws raises, and the script ends there, or
    all four return and the script goes on to its outputs. *)
Lemma run_cases (e : Env R) :
  (exists vals g x g',
      (length vals < 4)%nat /\ chain randbelow_impl (e_rng e) vals g /\
      randbelow_impl 10000 g = (inl x, g') /\
      run randbelow_impl e =
        (inl x, MkWorld g' "" (e_fs e) (e_dir_writable e) (e_dev_accepts e) (e_bufsize e) []
                        (map ev_draw vals ++ [EvRandbelow 10000 (inl x)])%list))
  \/
  (exists a b c d g,
      chain randbelow_impl (e_rng e) [a; b; c; d] g /\
      run randbelow_impl e = outputs a b c d (after_draws e g [a; b; c; d])).
Proof.
  assert (Hrun : forall w, main randbelow_impl w =
            bind (secrets_randbelow randbelow_impl 10000) (fun a =>
            bind (secrets_randbelow randbelow_impl 10000) (fun b =>
            bind (secrets_randbelow randbelow_impl 10000) (fun c =>
            bind (secrets_randbelow randbelow_impl 10000) (fun d =>
              outputs a b c d))))
            w) by reflexivity.
  unfold run. rewrite Hrun. clear Hrun. unfold boot.
  destruct (randbelow_impl 10000 (e_rng e)) as [[x|a] g1] eqn:D1.
  { left. exists [], (e_rng e), x, g1.
    repeat split; [cbn; lia | apply chain_nil | exact D1 | now draws_step]. }
  destruct (randbelow_impl 10000 g1) as [[x|b] g2] eqn:D2.
  { left. exists [a], g1, x, g2.
    repeat split; [cbn; lia | chain_solve | exact D2 | now draws_step]. }
  destruct (randbelow_impl 10000 g2) as [[x|c] g3] eqn:D3.
  { left. exists [a; b], g2, x, g3.
    repeat split; [cbn; lia | chain_solve | exact D3 | now draws_step]. }
  destruct (randbelow_impl 10000 g3) as [[x|d] g4] eqn:D4.
  { left. exists [a; b; c], g3, x, g4.
    repeat split; [cbn; lia | chain_solve | exact D4 | now draws_step]. }
  right. exists a, b, c, d, g4. split; [chain_solve | now draws_step].
Qed.

Lemma run_outcome (e : Env R) : Outcome randbelow_impl e (run randbelow_impl e).
Proof.
  destruct (run_cases e) as [(vals & g & x & g' & Hlen & Hch & Hx & ->)
                            | (a & b & c & d & g & Hch & ->)].
  - now apply out_entropy with (g := g).
  - destruct (env_can_open e) eqn:Hopen.
    + rewrite outputs_opened by (exact Hopen || reflexivity).
      now apply out_opened.
    + rewrite outputs_denied by exact Hopen.
      now apply out_denied.
Qed.

End DrawPhase.

(** ** Decimal rendering *)

Lemma int_of_str_str_int (z : Z) : int_of_str (str_int z) = Some z.
Proof.
  unfold int_of_str, str_int.
  rewrite NilZero.isi.
  - cbn. now rewrite DecimalZ.of_to.
  - destruct z; cbn; try discriminate;
      intros [= H]; now apply DecimalPos.Unsigned.to_uint_nonnil in H.
  - destruct z; cbn; try discriminate;
      intros [= H]; now apply DecimalPos.Unsigned.to_uint_nonnil in H.
Qed.

Lemma all_digits_uint (d : Decimal.uint) :
  all_digits (NilEmpty.string_of_uint d) = true.
Proof. induction d; cbn; auto. Qed.

Lemma nzhead_no_zero (d : Decimal.uint) :
  match Decimal.nzhead d with Decimal.D0 _ => False | _ => True end.
Proof. induction d; cbn; auto. Qed.

Lemma to_uint_unorm (p : positive) :
  Pos.to_uint p = Decimal.unorm (Pos.to_uint p).
Proof.
  rewrite <- DecimalN.Unsigned.to_of.
  change (N.of_uint (Pos.to_uint p)) with (Pos.of_uint (Pos.to_uint p)).
  now rewrite DecimalPos.Unsigned.of_to.
Qed.

(** The numeral of a positive number: digits only, the first one not 0. *)
Lemma str_pos_shape (p : positive) :
  exists c s, NilZero.string_of_uint (Pos.to_uint p) = String c s /\
              c <> "0"%char /\ is_digit c = true /\ all_digits s = true.
Proof.
  pose proof (DecimalPos.Unsigned.to_uint_nonnil p) as Hnil.
  pose proof (nzhead_no_zero (Pos.to_uint p)) as Hnz.
  pose proof (to_uint_unorm p) as Hu. unfold Decimal.unorm in Hu.
  pose proof (DecimalPos.Unsigned.to_uint_nonzero p) as Hz.
  destruct (Decimal.nzhead (Pos.to_uint p)) eqn:E; try contradiction;
    try (now rewrite Hu in Hz);
    rewrite Hu; cbn; eexists _, _; (split; [reflexivity |]);
    (split; [discriminate | split; [reflexivity | apply all_digits_uint]]).
Qed.

Lemma str_int_nonneg_digits (z : Z) : 0 <= z -> all_digits (str_int z) = true.
Proof.
  intros H. destruct z as [|p|p]; [reflexivity | | lia].
  unfold str_int. cbn.
  destruct (str_pos_shape p) as (c & s & -> & _ & Hc & Hs). cbn. now rewrite Hc, Hs.
Qed.

Lemma str_int_no_leading_zero (z : Z) : ~ leading_zero (str_int z).
Proof.
  intros (s' & Hs' & H). destruct z as [|p|p]; unfold str_int in H; cbn in H.
  - destruct H as [[= <-] | [=]]. now apply Hs'.
  - destruct (str_pos_shape p) as (c & s & E & Hc & Hd & _). rewrite E in H.
    destruct H as [[= -> _] | [= -> _]]; [now apply Hc | discriminate Hd].
  - destruct (str_pos_shape p) as (c & s & E & Hc & _). rewrite E in H.
    destruct H as [[=] | [= -> _]]. now apply Hc.
Qed.

Lemma occurs_digits (c : ascii) (s : string) :
  is_digit c = false -> all_digits s = true -> occurs c s = false.
Proof.
  intros Hc. induction s as [|c' s IH]; cbn; [reflexivity |].
  intros [Hc' Hs]%andb_prop. rewrite IH by exact Hs.
  destruct (Ascii.eqb_spec c c') as [-> | _]; [congruence | reflexivity].
Qed.

(** Neither separator occurs in the numeral of an integer. *)
Lemma str_int_no_sep (c : ascii) (z : Z) :
  is_digit c = false -> c <> "-"%char -> occurs c (str_int z) = false.
Proof.
  intros Hc Hm. destruct z as [|p|p]; unfold str_int; cbn.
  - destruct (Ascii.eqb_spec c "0") as [-> | _]; [discriminate | reflexivity].
  - destruct (str_pos_shape p) as (c' & s & -> & _ & Hc' & Hs).
    apply (occurs_digits c (String c' s) Hc). cbn. now rewrite Hc', Hs.
  - destruct (Ascii.eqb_spec c "-") as [-> | _]; [congruence |]. cbn.
    destruct (str_pos_shape p) as (c' & s & -> & _ & Hc' & Hs).
    apply (occurs_digits c (String c' s) Hc). cbn. now rewrite Hc', Hs.
Qed.

(** ** Facts about logs and draws *)

Lemma drawn_app (l1 l2 : list event) : drawn (l1 ++ l2) = (drawn l1 ++ drawn l2)%list.
Proof.
  induction l1 as [|[n [x|r]| | | |] l1 IH]; cbn; rewrite ?IH; reflexivity.
Qed.

Lemma drawn_draws (vals : list Z) : drawn (map ev_draw vals) = vals.
Proof. induction vals as [|r vals IH]; cbn; [reflexivity | now rewrite IH]. Qed.

Lemma drawn_entropy (vals : list Z) (n : Z) (x : exn) :
  drawn (map ev_draw vals ++ [EvRandbelow n (inl x)]) = vals.
Proof. rewrite drawn_app, drawn_draws. cbn. apply app_nil_r. Qed.

Lemma flushed_ok (dev : nat) (data : string) :
  flushed dev data = inr tt -> take dev data = data.
Proof.
  unfold flushed. destruct (Nat.leb_spec (String.length data) dev); [| discriminate].
  intros _. now apply take_all.
Qed.

Lemma flushed_failed (dev : nat) (data : string) (x : exn) :
  flushed dev data = inl x ->
  x = OSError EIO /\ (dev < String.length data)%nat.
Proof.
  unfold flushed. destruct (Nat.leb_spec (String.length data) dev); [discriminate |].
  now intros [= <-].
Qed.

Lemma line_newline (a b c d : Z) :
  line_of a b c d ++ newline =
  str_int a ++ " " ++ str_int b ++ " " ++ str_int c ++ " " ++ str_int d ++ newline.
Proof. unfold line_of. now rewrite !append_assoc. Qed.

Lemma replay_randbelow_contract (n : Z) (tape : list Z) (r : Z) (tape' : list Z) :
  replay_randbelow n tape = (inr r, tape') -> 0 <= r < n.
Proof.
  induction tape as [|x tape IH]; cbn; [discriminate |].
  destruct (Z.leb_spec 0 x); cbn; [| exact IH].
  destruct (Z.ltb_spec x n); [| exact IH].
  intros [= <- _]. lia.
Qed.

(** ** Joining and splitting *)

Lemma split_on_plain (sep : ascii) (s : string) :
  occurs sep s = false -> split_on sep s = [s].
Proof.
  induction s as [|c s IH]; cbn; [reflexivity |].
  intros [Hc Hs]%orb_false_elim. now rewrite Hc, IH.
Qed.

Lemma split_on_app (sep : ascii) (s t : string) :
  occurs sep s = false -> split_on sep (s ++ String sep t) = s :: split_on sep t.
Proof.
  induction s as [|c s IH]; cbn.
  - now rewrite Ascii.eqb_refl.
  - intros [Hc Hs]%orb_false_elim. now rewrite Hc, IH.
Qed.

Lemma split_on_join (sep : ascii) (l : list string) :
  l <> [] ->
  Forall (fun s => occurs sep s = false) l ->
  split_on sep (join (String sep "") l) = l.
Proof.
  intros Hne Hall. induction Hall as [|s l Hs Hl IH]; [contradiction |].
  destruct l as [|s' l].
  - now apply split_on_plain.
  - change (join (String sep "") (s :: s' :: l))
      with (s ++ String sep (join (String sep "") (s' :: l))).
    rewrite split_on_app by exact Hs. now rewrite IH.
Qed.

Lemma decode_join (sep : ascii) (vals : list Z) :
  is_digit sep = false -> sep <> "-"%char -> vals <> [] ->
  decode sep (join (String sep "") (map str_int vals)) = map Some vals.
Proof.
  intros Hd Hm Hne. unfold decode. rewrite split_on_join.
  - rewrite map_map. apply map_ext. apply int_of_str_str_int.
  - now destruct vals.
  - apply Forall_map, Forall_forall. intros z _. now apply str_int_no_sep.
Qed.

(** ** Splitting a log at one of its events *)

(** Enumerate the ways a concrete log splits as [pre ++ ev :: post]. *)
Ltac split_log pre H :=
  repeat (destruct pre as [|? pre]; cbn in H;
          [ first [discriminate H | injection H as ? ?; subst]
          | first [discriminate H | injection H as ? H; subst] ]).

Lemma draws_no_file_failure (vals : list Z) (n : Z) (r : exn + Z) :
  ~ file_write_failed (map ev_draw vals ++ [EvRandbelow n r]).
Proof.
  unfold file_write_failed. rewrite Exists_app, !List.Exists_exists.
  intros [(ev & Hin & Hf) | (ev & Hin & Hf)].
  - apply in_map_iff in Hin as (z & <- & _). exact Hf.
  - destruct Hin as [<- | []]. exact Hf.
Qed.

Section Claims.

Context {R : Type}.
Variable randbelow_impl : Z -> R -> (exn + Z) * R.

Lemma chain_in_range (g g' : R) (vals : list Z) :
  (forall n s r s', randbelow_impl n s = (inr r, s') -> 0 <= r < n) ->
  chain randbelow_impl g vals g' -> Forall (fun r => 0 <= r <= 9999) vals.
Proof.
  intros Hc Hch. induction Hch as [|g r g1 vals g' Hr _ IH]; constructor; [| exact IH].
  apply Hc in Hr. lia.
Qed.

(** C1. Provided the random source keeps the contract of
    [secrets.randbelow] (a returned integer [r] satisfies [0 <= r < n]),
    every integer drawn in a run of the script lies in [0, 9999].  Every
    call of the random source passes the bound 10000; no run draws more
    than four integers, and a successful run draws exactly four. *)
Theorem draws_in_range :
  (forall n s r s', randbelow_impl n s = (inr r, s') -> 0 <= r < n) ->
  forall e : Env R,
    Forall (fun r => 0 <= r <= 9999) (drawn (log (snd (run randbelow_impl e)))) /\
    Forall (fun ev => forall n r, ev = EvRandbelow n r -> n = 10000)
           (log (snd (run randbelow_impl e))) /\
    (length (drawn (log (snd (run randbelow_impl e)))) <= 4)%nat /\
    (fst (run randbelow_impl e) = inr tt ->
     length (drawn (log (snd (run randbelow_impl e)))) = 4%nat).
Proof.
  intros Hc e.
  destruct (run_outcome randbelow_impl e)
    as [vals g x g' Hlen Hch _ | a b c d g Hch _ | a b c d g Hch _];
    cbn [fst snd log].
  - rewrite drawn_entropy.
    split; [now apply (chain_in_range _ _ _ Hc Hch) |].
    split; [| split; [lia | discriminate]].
    apply Forall_app. split.
    + apply Forall_map, Forall_forall. now intros z _ n r [= <- _].
    + constructor; [| constructor]. now intros n r [= <- _].
  - split; [now apply (chain_in_range _ _ _ Hc Hch) |].
    split; [| split; [cbn; lia | reflexivity]].
    repeat constructor; intros n r [=]; congruence.
  - split; [now apply (chain_in_range _ _ _ Hc Hch) |].
    split; [| split; [cbn; lia | reflexivity]].
    repeat constructor; intros n r [=]; congruence.
Qed.

(** C2. In every run standard output is either empty, when a draw
    failed, or exactly one line: whenever the run has made its four
    draws [a], [b], [c], [d], standard output holds their numerals in
    that order, separated by single spaces and ended by one newline.  Each
    numeral is the decimal one: it reads back as the integer, has no
    leading zero, and for a non-negative integer consists of digits only.
    For the draws 1234, 0, 9999, 42 the output is the line
    [1234 0 9999 42]. *)
Theorem stdout_line (e : Env R) :
  (forall a b c d,
      drawn (log (snd (run randbelow_impl e))) = [a; b; c; d] ->
      stdout (snd (run randbelow_impl e)) =
        str_int a ++ " " ++ str_int b ++ " " ++ str_int c ++ " " ++ str_int d ++ newline
      /\ Forall (fun z => int_of_str (str_int z) = Some z /\
                          ~ leading_zero (str_int z) /\
                          (0 <= z -> all_digits (str_int z) = true))
                [a; b; c; d]) /\
  ((length (drawn (log (snd (run randbelow_impl e)))) < 4)%nat ->
   stdout (snd (run randbelow_impl e)) = "") /\
  (drawn (log (snd (run randbelow_impl e))) = [1234; 0; 9999; 42] ->
   stdout (snd (run randbelow_impl e)) = "1234 0 9999 42" ++ newline).
Proof.
  assert (Hout : forall a b c d,
             drawn (log (snd (run randbelow_impl e))) = [a; b; c; d] ->
             stdout (snd (run randbelow_impl e)) = line_of a b c d ++ newline).
  { intros a b c d.
    destruct (run_outcome randbelow_impl e)
      as [vals g x g' Hlen _ _ | a' b' c' d' g _ _ | a' b' c' d' g _ _];
      cbn [snd log stdout].
    - rewrite drawn_entropy. intros ->. cbn in Hlen. lia.
    - cbn. now intros [= -> -> -> ->].
    - cbn. now intros [= -> -> -> ->]. }
  split; [| split].
  - intros a b c d Hd. split; [now rewrite (Hout _ _ _ _ Hd), line_newline |].
    repeat constructor;
      auto using int_of_str_str_int, str_int_no_leading_zero, str_int_nonneg_digits.
  - destruct (run_outcome randbelow_impl e)
      as [vals g x g' _ _ _ | a b c d g _ _ | a b c d g _ _];
      cbn [snd log stdout]; [reflexivity | cbn; lia | cbn; lia].
  - intros Hd. now rewrite (Hout _ _ _ _ Hd).
Qed.

(** C3. After a successful run, [output.txt] holds exactly the numerals
    of the four draws in their order, separated by commas, with nothing
    before or after them.  For the draws 1234, 0, 9999, 42 that is
    [1234,0,9999,42]. *)
Theorem file_content (e : Env R) :
  fst (run randbelow_impl e) = inr tt ->
  exists a b c d,
    drawn (log (snd (run randbelow_impl e))) = [a; b; c; d] /\
    fs (snd (run randbelow_impl e)) !! "output.txt" =
      Some (File (str_int a ++ "," ++ str_int b ++ "," ++ str_int c ++ "," ++ str_int d) true)
    /\ ([a; b; c; d] = [1234; 0; 9999; 42] ->
        fs (snd (run randbelow_impl e)) !! "output.txt" = Some (File "1234,0,9999,42" true)).
Proof.
  destruct (run_outcome randbelow_impl e) as [vals g x g' _ _ _ | a b c d g _ _ | a b c d g _ _];
    cbn [fst snd log fs]; try discriminate.
  intros Hok%flushed_ok. rewrite Hok.
  exists a, b, c, d. split; [reflexivity |].
  rewrite lookup_insert_eq. split; [reflexivity |].
  now intros [= -> -> -> ->].
Qed.


(** C4. After a successful run, standard output and [output.txt] carry
    the same four integers in the same order: both are the numerals of the
    draws joined by a separator, a space on standard output and a comma in
    the file, and only standard output ends with a newline.  Read back,
    both give the integers that were drawn. *)
Theorem outputs_agree (e : Env R) :
  fst (run randbelow_impl e) = inr tt ->
  exists vals text,
    drawn (log (snd (run randbelow_impl e))) = vals /\
    length vals = 4%nat /\
    stdout (snd (run randbelow_impl e)) = join " " (map str_int vals) ++ newline /\
    fs (snd (run randbelow_impl e)) !! "output.txt" = Some (File text true) /\
    text = join "," (map str_int vals) /\
    decode " " (join " " (map str_int vals)) = map Some vals /\
    decode "," text = map Some vals.
Proof.
  destruct (run_outcome randbelow_impl e) as [vals g x g' _ _ _ | a b c d g _ _ | a b c d g _ _];
    cbn [fst snd log fs stdout]; try discriminate.
  intros Hok%flushed_ok. rewrite Hok.
  exists [a; b; c; d], (csv_of a b c d).
  repeat split.
  - apply lookup_insert_eq.
  - now apply (decode_join " " [a; b; c; d]).
  - now apply (decode_join "," [a; b; c; d]).
Qed.

(** C5. Whatever [output.txt] held before a successful run, however long,
    afterwards it holds the comma-separated numerals of this run's draws
    and nothing else. *)
Theorem file_overwritten (e : Env R) (prior : file) :
  e_fs e !! "output.txt" = Some prior ->
  fst (run randbelow_impl e) = inr tt ->
  exists a b c d,
    drawn (log (snd (run randbelow_impl e))) = [a; b; c; d] /\
    fs (snd (run randbelow_impl e)) !! "output.txt" =
      Some (File (str_int a ++ "," ++ str_int b ++ "," ++ str_int c ++ "," ++ str_int d) true).
Proof.
  intros _.
  destruct (run_outcome randbelow_impl e) as [vals g x g' _ _ _ | a b c d g _ _ | a b c d g _ _];
    cbn [fst snd log fs]; try discriminate.
  intros Hok%flushed_ok. rewrite Hok.
  exists a, b, c, d. split; [reflexivity | apply lookup_insert_eq].
Qed.


(** C6, amended. After a failure on the file the process exits non-zero.
    If the file could not be opened, the file system is as it was before
    the run.  If it was opened, it has been truncated already, and it is
    left with the part of the new text that the device took, a proper
    prefix of it and possibly empty; what it held before is gone. *)
Theorem failed_write_outcome (e : Env R) :
  file_write_failed (log (snd (run randbelow_impl e))) ->
  exit_status (fst (run randbelow_impl e)) <> 0 /\
  ((env_can_open e = false /\ fs (snd (run randbelow_impl e)) = e_fs e) \/
   (env_can_open e = true /\
    exists a b c d,
      drawn (log (snd (run randbelow_impl e))) = [a; b; c; d] /\
      (e_dev_accepts e < String.length (csv_of a b c d))%nat /\
      fs (snd (run randbelow_impl e)) !! "output.txt" =
        Some (File (take (e_dev_accepts e) (csv_of a b c d)) true))).
Proof.
  destruct (run_outcome randbelow_impl e)
    as [vals g x g' _ _ _ | a b c d g _ Hopen | a b c d g _ Hopen];
    cbn [fst snd log fs].
  - intros H. now apply draws_no_file_failure in H.
  - intros _. split; [discriminate | left; now split].
  - intros H.
    assert (Hf : exists x, flushed (e_dev_accepts e) (csv_of a b c d) = inl x).
    { unfold file_write_failed in H. rewrite List.Exists_exists in H.
      destruct H as (ev & Hin & Hf).
      destruct (flushed (e_dev_accepts e) (csv_of a b c d)) as [x|[]] eqn:E; [now exists x |].
      exfalso. cbn in Hin.
      destruct (String.length (csv_of a b c d) <=? e_bufsize e)%nat;
        intuition (subst; cbn in Hf; auto). }
    destruct Hf as [x Hx]. rewrite Hx. split; [discriminate |].
    right. split; [exact Hopen |].
    apply flushed_failed in Hx as [_ Hlt].
    exists a, b, c, d. split; [reflexivity |]. split; [exact Hlt | apply lookup_insert_eq].
Qed.


(** C7. The exit status is 0 exactly when no runtime call of the run
    raised.  An exception raised by any call, the random source's or the
    file's, is the one the run ends with: it is not caught, and after it
    no call is made again, the only calls that may follow being the close
    of the [with] block. *)
Theorem errors_reach_process_boundary (e : Env R) :
  (exit_status (fst (run randbelow_impl e)) = 0 <->
   Forall (fun ev => raised ev = None) (log (snd (run randbelow_impl e)))) /\
  (exit_status (fst (run randbelow_impl e)) = 0 <-> fst (run randbelow_impl e) = inr tt) /\
  (forall pre ev post x,
      log (snd (run randbelow_impl e)) = (pre ++ ev :: post)%list ->
      raised ev = Some x ->
      fst (run randbelow_impl e) = inl x /\
      exit_status (fst (run randbelow_impl e)) <> 0 /\
      Forall is_close post).
Proof.
  destruct (run_outcome randbelow_impl e)
    as [vals g x g' Hlen _ _ | a b c d g _ _ | a b c d g _ _];
    cbn [fst snd log exit_status].
  - split; [| split].
    + split; [discriminate |]. intros H. apply Forall_app in H as [_ H].
      inversion H as [|? ? Hr _]. discriminate Hr.
    + split; discriminate.
    + intros pre ev post y Hlog Hr.
      destruct vals as [|v1 [|v2 [|v3 [|v4 ?]]]]; cbn in Hlen; try lia;
        cbn in Hlog; split_log pre Hlog; cbn in Hr; try discriminate Hr;
        injection Hr as <-; repeat split; (discriminate || constructor).
  - split; [| split].
    + split; [discriminate |]. intros H.
      do 5 (apply Forall_cons_iff in H as [_ H]).
      apply Forall_cons_iff in H as [Hr _]. discriminate Hr.
    + split; discriminate.
    + intros pre ev post y Hlog Hr.
      split_log pre Hlog; cbn in Hr; try discriminate Hr;
        injection Hr as <-; repeat split; (discriminate || constructor).
  - unfold flushed.
    destruct (String.length (csv_of a b c d) <=? e_dev_accepts e)%nat;
      destruct (String.length (csv_of a b c d) <=? e_bufsize e)%nat;
      (split; [| split]);
      try (split; [reflexivity || discriminate | reflexivity || discriminate]).
    all: try (split; [intros _; repeat constructor | reflexivity]).
    all: try (split; [discriminate | intros H;
                do 7 (apply Forall_cons_iff in H as [_ H]);
                apply Forall_cons_iff in H as [Hr _]; discriminate Hr]).
    all: intros pre ev post y Hlog Hr;
      split_log pre Hlog; cbn in Hr; try discriminate Hr;
      injection Hr as <-; repeat split; try discriminate; repeat constructor.
Qed.


(** C8, amended. When the process ends, on every path, no file object
    is left open: each successful [open] in the log is followed by the
    [close] of the file object it returned, also when the write or the
    flush raised.  The close flushes what the device takes: the file holds
    the part of the written text that the device accepted, which is all
    of it after a successful run and a proper prefix of it, possibly
    empty, after a failed one. *)
Theorem file_closed_on_exit (e : Env R) :
  Forall (fun h => h_closed h = true) (handles (snd (run randbelow_impl e))) /\
  (forall pre path fd post,
      log (snd (run randbelow_impl e)) = (pre ++ EvOpen path (inr fd) :: post)%list ->
      exists r, In (EvClose fd r) post) /\
  (forall fd data r,
      In (EvWrite fd data r) (log (snd (run randbelow_impl e))) ->
      fs (snd (run randbelow_impl e)) !! "output.txt" =
        Some (File (take (e_dev_accepts e) data) true) /\
      (fst (run randbelow_impl e) = inr tt ->
       fs (snd (run randbelow_impl e)) !! "output.txt" = Some (File data true)) /\
      (forall x, fst (run randbelow_impl e) = inl x ->
                 (e_dev_accepts e < String.length data)%nat)).
Proof.
  destruct (run_outcome randbelow_impl e)
    as [vals g x g' Hlen _ _ | a b c d g _ _ | a b c d g _ _];
    cbn [fst snd log handles fs].
  - split; [constructor | split].
    + intros pre path fd post Hlog.
      destruct vals as [|v1 [|v2 [|v3 [|v4 ?]]]]; cbn in Hlen; try lia;
        cbn in Hlog; split_log pre Hlog.
    + intros fd data r [(z & [=] & _)%in_map_iff | [[=] | []]]%in_app_or.
  - split; [constructor | split].
    + intros pre path fd post Hlog. split_log pre Hlog.
    + intros fd data r Hin. cbn in Hin. intuition discriminate.
  - split; [repeat constructor | split].
    + intros pre path fd post Hlog. split_log pre Hlog.
      eexists. right. left. reflexivity.
    + intros fd data r Hin. cbn in Hin.
      destruct Hin as [[=] | [[=] | [[=] | [[=] | [[=] | [[=] | [[= _ <- _] | [[=] | []]]]]]]]].
      split; [apply lookup_insert_eq | split].
      * intros Hok%flushed_ok. rewrite Hok. apply lookup_insert_eq.
      * intros x Hx. now apply flushed_failed in Hx.
Qed.

(** C10. In every run the line is printed before any call on the file:
    whatever call on [output.txt] appears in the log, the four draws and
    the print of their line come before it, and nothing is printed after
    it.  So when a call on the file fails, standard output already holds
    the four values. *)
Theorem print_precedes_file (e : Env R) :
  (forall pre ev post,
      log (snd (run randbelow_impl e)) = (pre ++ ev :: post)%list ->
      is_file_event ev ->
      exists a b c d,
        drawn pre = [a; b; c; d] /\
        In (EvPrint (line_of a b c d)) pre /\
        Forall (fun ev' => ~ is_print ev') post /\
        stdout (snd (run randbelow_impl e)) = line_of a b c d ++ newline) /\
  (file_write_failed (log (snd (run randbelow_impl e))) ->
   exists a b c d,
     drawn (log (snd (run randbelow_impl e))) = [a; b; c; d] /\
     stdout (snd (run randbelow_impl e)) =
       str_int a ++ " " ++ str_int b ++ " " ++ str_int c ++ " " ++ str_int d ++ newline).
Proof.
  destruct (run_outcome randbelow_impl e)
    as [vals g x g' Hlen _ _ | a b c d g _ _ | a b c d g _ _];
    cbn [fst snd log stdout].
  - split.
    + intros pre ev post Hlog Hev.
      destruct vals as [|v1 [|v2 [|v3 [|v4 ?]]]]; cbn in Hlen; try lia;
        cbn in Hlog; split_log pre Hlog; contradiction.
    + intros H. now apply draws_no_file_failure in H.
  - split.
    + intros pre ev post Hlog Hev.
      split_log pre Hlog; try contradiction.
      exists a, b, c, d. cbn.
      repeat split; auto 10; repeat constructor; auto.
    + intros _. exists a, b, c, d. split; [reflexivity | apply line_newline].
  - split.
    + intros pre ev post Hlog Hev.
      split_log pre Hlog; try contradiction;
        exists a, b, c, d; cbn;
        (repeat split; auto 10; repeat constructor; auto).
    + intros _. exists a, b, c, d. split; [reflexivity | apply line_newline].
Qed.

End Claims.

(** ** The scenarios, run *)

Lemma device_fails_log :
  In (EvClose 0 (inl (OSError EIO))) (log (snd (run replay_randbelow env_device_fails))).
Proof. vm_compute. auto 10. Qed.

Lemma device_fails_failed :
  file_write_failed (log (snd (run replay_randbelow env_device_fails))).
Proof.
  apply List.Exists_exists. exists (EvClose 0 (inl (OSError EIO))).
  split; [apply device_fails_log | exact I].
Qed.

Lemma draws_in_range_witness :
  Forall (fun r => 0 <= r <= 9999) (drawn (log (snd (run replay_randbelow env_fresh)))) /\
  Forall (fun ev => forall n r, ev = EvRandbelow n r -> n = 10000)
         (log (snd (run replay_randbelow env_fresh))) /\
  (length (drawn (log (snd (run replay_randbelow env_fresh)))) <= 4)%nat /\
  (fst (run replay_randbelow env_fresh) = inr tt ->
   length (drawn (log (snd (run replay_randbelow env_fresh)))) = 4%nat).
Proof. exact (draws_in_range replay_randbelow replay_randbelow_contract env_fresh). Defined.

Lemma stdout_line_witness :
  drawn (log (snd (run replay_randbelow env_fresh))) = [1234; 0; 9999; 42] /\
  stdout (snd (run replay_randbelow env_fresh)) = "1234 0 9999 42" ++ newline.
Proof.
  assert (H : drawn (log (snd (run replay_randbelow env_fresh))) = [1234; 0; 9999; 42])
    by (vm_compute; reflexivity).
  split; [exact H |].
  exact (proj2 (proj2 (stdout_line replay_randbelow env_fresh)) H).
Defined.

Lemma file_content_witness :
  fst (run replay_randbelow env_fresh) = inr tt /\
  exists a b c d,
    drawn (log (snd (run replay_randbelow env_fresh))) = [a; b; c; d] /\
    fs (snd (run replay_randbelow env_fresh)) !! "output.txt" =
      Some (File (str_int a ++ "," ++ str_int b ++ "," ++ str_int c ++ "," ++ str_int d) true)
    /\ ([a; b; c; d] = [1234; 0; 9999; 42] ->
        fs (snd (run replay_randbelow env_fresh)) !! "output.txt" =
          Some (File "1234,0,9999,42" true)).
Proof.
  assert (H : fst (run replay_randbelow env_fresh) = inr tt) by (vm_compute; reflexivity).
  split; [exact H | exact (file_content replay_randbelow env_fresh H)].
Defined.

Lemma outputs_agree_witness :
  fst (run replay_randbelow env_fresh) = inr tt /\
  exists vals text,
    drawn (log (snd (run replay_randbelow env_fresh))) = vals /\
    length vals = 4%nat /\
    stdout (snd (run replay_randbelow env_fresh)) = join " " (map str_int vals) ++ newline /\
    fs (snd (run replay_randbelow env_fresh)) !! "output.txt" = Some (File text true) /\
    text = join "," (map str_int vals) /\
    decode " " (join " " (map str_int vals)) = map Some vals /\
    decode "," text = map Some vals.
Proof.
  assert (H : fst (run replay_randbelow env_fresh) = inr tt) by (vm_compute; reflexivity).
  split; [exact H | exact (outputs_agree replay_randbelow env_fresh H)].
Defined.

Lemma file_overwritten_witness :
  e_fs env_stale !! "output.txt" = Some (File "9999,9999,9999,9999" true) /\
  fst (run replay_randbelow env_stale) = inr tt /\
  exists a b c d,
    drawn (log (snd (run replay_randbelow env_stale))) = [a; b; c; d] /\
    fs (snd (run replay_randbelow env_stale)) !! "output.txt" =
      Some (File (str_int a ++ "," ++ str_int b ++ "," ++ str_int c ++ "," ++ str_int d) true).
Proof.
  assert (H0 : e_fs env_stale !! "output.txt" = Some (File "9999,9999,9999,9999" true))
    by (vm_compute; reflexivity).
  assert (H : fst (run replay_randbelow env_stale) = inr tt) by (vm_compute; reflexivity).
  split; [exact H0 |]. split; [exact H |].
  exact (file_overwritten replay_randbelow env_stale _ H0 H).
Defined.

(** C6 as stated fails: on a device that takes no byte the run ends with
    an exception, and [output.txt], which held [9999,9999,9999,9999], is
    left empty: neither as it was nor absent. *)
Lemma failed_write_truncates :
  ~ failed_write_leaves_no_trace replay_randbelow env_device_fails.
Proof.
  intros H. destruct (H device_fails_failed) as [_ [H' | H']];
    vm_compute in H'; discriminate H'.
Qed.

Lemma device_fails_write :
  In (EvWrite 0 "1234,0,9999,42" (inr tt))
     (log (snd (run replay_randbelow env_device_fails))).
Proof. vm_compute. auto 10. Qed.

(** C8 as stated fails: on a device that takes no byte the write
    returns and the close raises; the file object is closed, but the text
    written through it, [1234,0,9999,42], is not in the file, which is
    left empty. *)
Lemma failed_flush_loses_content :
  ~ closed_and_flushed replay_randbelow env_device_fails.
Proof.
  intros [_ H]. destruct (H _ _ _ device_fails_write) as (f & Hf & Hc).
  vm_compute in Hf. injection Hf as <-. discriminate Hc.
Qed.

Lemma failed_write_outcome_witness :
  file_write_failed (log (snd (run replay_randbelow env_device_fails))) /\
  exit_status (fst (run replay_randbelow env_device_fails)) <> 0 /\
  ((env_can_open env_device_fails = false /\
    fs (snd (run replay_randbelow env_device_fails)) = e_fs env_device_fails) \/
   (env_can_open env_device_fails = true /\
    exists a b c d,
      drawn (log (snd (run replay_randbelow env_device_fails))) = [a; b; c; d] /\
      (e_dev_accepts env_device_fails < String.length (csv_of a b c d))%nat /\
      fs (snd (run replay_randbelow env_device_fails)) !! "output.txt" =
        Some (File (take (e_dev_accepts env_device_fails) (csv_of a b c d)) true))).
Proof.
  split; [exact device_fails_failed |].
  exact (failed_write_outcome replay_randbelow env_device_fails device_fails_failed).
Defined.

(** * Further properties of the script *)

(** ** The draws determine the run *)

Section Draws.

Context {R : Type}.
Variable randbelow_impl : Z -> R -> (exn + Z) * R.

(** Two chains of draws from the same state agree as far as both go. *)
Lemma chain_prefix (g g1 : R) (vals : list Z) :
  chain randbelow_impl g vals g1 ->
  forall vals' g2,
    chain randbelow_impl g vals' g2 ->
    (length vals <= length vals')%nat ->
    exists rest, vals' = (vals ++ rest)%list /\ chain randbelow_impl g1 rest g2.
Proof.
  induction 1 as [g | g r g1 vals g' Hr _ IH]; intros vals' g2 H2 Hlen.
  - exists vals'. now split.
  - inversion H2 as [| ? r' g1' vals'' ? Hr' Hch']; subst; cbn in Hlen; [lia |].
    rewrite Hr in Hr'. injection Hr' as <- <-.
    destruct (IH _ _ Hch' ltac:(lia)) as (rest & -> & Hrest).
    exists rest. now split.
Qed.

(** A chain cannot go past a state in which the source raises. *)
Lemma chain_stuck (g g1 g' g2 : R) (vals vals' : list Z) (x : exn) :
  chain randbelow_impl g vals g1 ->
  randbelow_impl 10000 g1 = (inl x, g') ->
  chain randbelow_impl g vals' g2 ->
  (length vals < length vals')%nat -> False.
Proof.
  intros H1 Hx H2 Hlen.
  destruct (chain_prefix _ _ _ H1 _ _ H2 ltac:(lia)) as (rest & -> & Hrest).
  rewrite length_app in Hlen.
  inversion Hrest as [| ? r ? ? ? Hr _]; subst; [cbn in Hlen; lia |].
  rewrite Hx in Hr. discriminate Hr.
Qed.

Lemma chain_func (g g1 g2 : R) (vals vals' : list Z) :
  chain randbelow_impl g vals g1 ->
  chain randbelow_impl g vals' g2 ->
  length vals = length vals' ->
  vals = vals' /\ g1 = g2.
Proof.
  intros H1 H2 Hlen.
  destruct (chain_prefix _ _ _ H1 _ _ H2 ltac:(lia)) as (rest & -> & Hrest).
  rewrite length_app in Hlen.
  destruct rest; [| cbn in Hlen; lia].
  inversion Hrest; subst. now rewrite app_nil_r.
Qed.

(** When a draw raises after [vals], the run is the failed one. *)
Lemma run_when_draw_fails (e : Env R) (vals : list Z) (g g' : R) (x : exn) :
  (length vals < 4)%nat ->
  chain randbelow_impl (e_rng e) vals g ->
  randbelow_impl 10000 g = (inl x, g') ->
  run randbelow_impl e =
    (inl x, MkWorld g' "" (e_fs e) (e_dir_writable e) (e_dev_accepts e) (e_bufsize e) []
                    (map ev_draw vals ++ [EvRandbelow 10000 (inl x)])%list).
Proof.
  intros Hlen Hch Hx.
  destruct (run_cases randbelow_impl e)
    as [(vals2 & g2 & x2 & g2' & Hlen2 & Hch2 & Hx2 & ->)
       | (a & b & c & d & g4 & Hch4 & _)].
  - destruct (Nat.lt_trichotomy (length vals) (length vals2)) as [Hlt | [Heq | Hgt]].
    + now destruct (chain_stuck _ _ _ _ _ _ _ Hch Hx Hch2 Hlt).
    + destruct (chain_func _ _ _ _ _ Hch Hch2 Heq) as [-> ->].
      rewrite Hx in Hx2. now injection Hx2 as -> ->.
    + now destruct (chain_stuck _ _ _ _ _ _ _ Hch2 Hx2 Hch Hgt).
  - now destruct (chain_stuck _ _ _ _ _ _ _ Hch Hx Hch4 Hlen).
Qed.

(** When the four draws return, the run is the output phase on them. *)
Lemma run_when_draws_return (e : Env R) (a b c d : Z) (g : R) :
  chain randbelow_impl (e_rng e) [a; b; c; d] g ->
  run randbelow_impl e = outputs a b c d (after_draws e g [a; b; c; d]).
Proof.
  intros Hch.
  destruct (run_cases randbelow_impl e)
    as [(vals2 & g2 & x2 & g2' & Hlen2 & Hch2 & Hx2 & _)
       | (a' & b' & c' & d' & g4 & Hch4 & ->)].
  - now destruct (chain_stuck _ _ _ _ _ _ _ Hch2 Hx2 Hch Hlen2).
  - destruct (chain_func _ _ _ _ _ Hch Hch4 eq_refl) as [[= -> -> -> ->] ->].
    reflexivity.
Qed.

End Draws.

(** ** Sizes of numerals *)





(** ** What a run does and leaves alone *)

Section Further.

Context {R : Type}.
Variable randbelow_impl : Z -> R -> (exn + Z) * R.

(** X2. The four draws come before any output.  When a call of the
    random source raises, the run ends with that exception and has done
    nothing else: nothing is printed, no call is made on the file, no
    file object exists, and the directory is as it was. *)
Theorem failed_draw_no_output (e : Env R) (n : Z) (x : exn) :
  In (EvRandbelow n (inl x)) (log (snd (run randbelow_impl e))) ->
  fst (run randbelow_impl e) = inl x /\
  stdout (snd (run randbelow_impl e)) = "" /\
  fs (snd (run randbelow_impl e)) = e_fs e /\
  handles (snd (run randbelow_impl e)) = [] /\
  Forall (fun ev => ~ is_print ev /\ ~ is_file_event ev)
         (log (snd (run randbelow_impl e))).
Proof.
  destruct (run_outcome randbelow_impl e)
    as [vals g y g' _ _ _ | a b c d g _ _ | a b c d g _ _];
    cbn [fst snd log stdout fs handles]; intros Hin.
  - apply in_app_or in Hin as [Hin | [[= _ <-] | []]].
    + apply in_map_iff in Hin as (z & [=] & _).
    + repeat split. apply Forall_app. split.
      * apply Forall_map, Forall_forall. intros z _. cbn. tauto.
      * repeat constructor; cbn; tauto.
  - cbn in Hin. intuition discriminate.
  - cbn in Hin. intuition discriminate.
Qed.

(** X3. A run succeeds only when the four draws returned, the
    environment lets [output.txt] be opened for writing, and the device
    takes the whole comma-separated text: in a directory where the file
    cannot be opened, or on a device that refuses part of the text, no run
    succeeds. *)
Theorem run_succeeds_only_if (e : Env R) :
  fst (run randbelow_impl e) = inr tt ->
  exists a b c d g,
    chain randbelow_impl (e_rng e) [a; b; c; d] g /\
    drawn (log (snd (run randbelow_impl e))) = [a; b; c; d] /\
    env_can_open e = true /\
    (String.length (csv_of a b c d) <= e_dev_accepts e)%nat.
Proof.
  destruct (run_outcome randbelow_impl e)
    as [vals g x g' _ _ _ | a b c d g _ _ | a b c d g Hch Hopen];
    cbn [fst snd log]; try discriminate.
  unfold flushed.
  destruct (Nat.leb_spec (String.length (csv_of a b c d)) (e_dev_accepts e));
    [| discriminate].
  intros _. now exists a, b, c, d, g.
Qed.


(** X5. The script never reads [output.txt]: replacing what the file
    held before the run by anything else (the file staying as writable
    as it was) changes neither the result of the run, nor standard
    output, nor the calls made, and when the file gets opened it changes
    nothing of the directory the run leaves. *)
Theorem prior_content_irrelevant (e : Env R) (f f' : file) :
  e_fs e !! "output.txt" = Some f ->
  writable f' = writable f ->
  fst (run randbelow_impl (with_file e f')) = fst (run randbelow_impl e) /\
  stdout (snd (run randbelow_impl (with_file e f'))) = stdout (snd (run randbelow_impl e)) /\
  log (snd (run randbelow_impl (with_file e f'))) = log (snd (run randbelow_impl e)) /\
  ((exists fd, In (EvOpen "output.txt" (inr fd)) (log (snd (run randbelow_impl e)))) ->
   fs (snd (run randbelow_impl (with_file e f'))) = fs (snd (run randbelow_impl e))).
Proof.
  intros Hf Hw.
  assert (Hopen' : env_can_open (with_file e f') = env_can_open e).
  { unfold env_can_open, with_file. cbn. now rewrite lookup_insert_eq, Hf. }
  destruct (run_outcome randbelow_impl e)
    as [vals g x g' Hlen Hch Hx | a b c d g Hch Hopen | a b c d g Hch Hopen];
    cbn [fst snd log stdout fs].
  - rewrite (run_when_draw_fails randbelow_impl (with_file e f') vals g g' x Hlen Hch Hx).
    cbn. repeat split.
    intros (fd & [(z & [=] & _)%in_map_iff | [[=] | []]]%in_app_or).
  - rewrite (run_when_draws_return randbelow_impl (with_file e f') a b c d g Hch).
    rewrite outputs_denied by (rewrite <- Hopen, <- Hopen'; reflexivity).
    cbn. repeat split.
    intros (fd & Hin). cbn in Hin. intuition discriminate.
  - rewrite (run_when_draws_return randbelow_impl (with_file e f') a b c d g Hch).
    rewrite outputs_opened
      by (reflexivity || (rewrite <- Hopen, <- Hopen'; reflexivity)).
    cbn. repeat split.
    intros _. apply insert_insert_eq.
Qed.

(** X6. A successful run makes exactly eight runtime calls, in this
    order and each returning: four draws with bound 10000, one print of
    the line, one open of [output.txt], one write of the comma-separated
    text to the file object opened, and its close. *)
Theorem successful_trace (e : Env R) :
  fst (run randbelow_impl e) = inr tt ->
  exists a b c d,
    log (snd (run randbelow_impl e)) =
      [EvRandbelow 10000 (inr a); EvRandbelow 10000 (inr b);
       EvRandbelow 10000 (inr c); EvRandbelow 10000 (inr d);
       EvPrint (str_int a ++ " " ++ str_int b ++ " " ++ str_int c ++ " " ++ str_int d);
       EvOpen "output.txt" (inr 0%nat);
       EvWrite 0 (str_int a ++ "," ++ str_int b ++ "," ++ str_int c ++ "," ++ str_int d)
               (inr tt);
       EvClose 0 (inr tt)].
Proof.
  destruct (run_outcome randbelow_impl e)
    as [vals g x g' _ _ _ | a b c d g _ _ | a b c d g _ _];
    cbn [fst snd log]; try discriminate.
  intros ->. exists a, b, c, d.
  now destruct (String.length (csv_of a b c d) <=? e_bufsize e)%nat.
Qed.

End Further.

(** ** The further scenarios, run *)

Lemma failed_draw_no_output_witness :
  In (EvRandbelow 10000 (inl NotImplementedError))
     (log (snd (run replay_randbelow env_no_entropy))) /\
  fst (run replay_randbelow env_no_entropy) = inl NotImplementedError /\
  stdout (snd (run replay_randbelow env_no_entropy)) = "" /\
  fs (snd (run replay_randbelow env_no_entropy)) = e_fs env_no_entropy /\
  handles (snd (run replay_randbelow env_no_entropy)) = [] /\
  Forall (fun ev => ~ is_print ev /\ ~ is_file_event ev)
         (log (snd (run replay_randbelow env_no_entropy))).
Proof.
  assert (H : In (EvRandbelow 10000 (inl NotImplementedError))
                 (log (snd (run replay_randbelow env_no_entropy))))
    by (vm_compute; auto).
  split; [exact H | exact (failed_draw_no_output replay_randbelow env_no_entropy _ _ H)].
Defined.

Lemma run_succeeds_only_if_witness :
  fst (run replay_randbelow env_fresh) = inr tt /\
  exists a b c d g,
    chain replay_randbelow (e_rng env_fresh) [a; b; c; d] g /\
    drawn (log (snd (run replay_randbelow env_fresh))) = [a; b; c; d] /\
    env_can_open env_fresh = true /\
    (String.length (csv_of a b c d) <= e_dev_accepts env_fresh)%nat.
Proof.
  assert (H : fst (run replay_randbelow env_fresh) = inr tt) by (vm_compute; reflexivity).
  split; [exact H | exact (run_succeeds_only_if replay_randbelow env_fresh H)].
Defined.


Lemma prior_content_irrelevant_witness :
  e_fs env_stale !! "output.txt" = Some (File "9999,9999,9999,9999" true) /\
  fst (run replay_randbelow (with_file env_stale (File "" true))) =
    fst (run replay_randbelow env_stale) /\
  stdout (snd (run replay_randbelow (with_file env_stale (File "" true)))) =
    stdout (snd (run replay_randbelow env_stale)) /\
  log (snd (run replay_randbelow (with_file env_stale (File "" true)))) =
    log (snd (run replay_randbelow env_stale)) /\
  ((exists fd, In (EvOpen "output.txt" (inr fd))
                  (log (snd (run replay_randbelow env_stale)))) ->
   fs (snd (run replay_randbelow (with_file env_stale (File "" true)))) =
     fs (snd (run replay_randbelow env_stale))).
Proof.
  assert (H : e_fs env_stale !! "output.txt" = Some (File "9999,9999,9999,9999" true))
    by (vm_compute; reflexivity).
  split; [exact H |].
  exact (prior_content_irrelevant replay_randbelow env_stale _ (File "" true) H eq_refl).
Defined.

Lemma successful_trace_witness :
  fst (run replay_randbelow env_fresh) = inr tt /\
  exists a b c d,
    log (snd (run replay_randbelow env_fresh)) =
      [EvRandbelow 10000 (inr a); EvRandbelow 10000 (inr b);
       EvRandbelow 10000 (inr c); EvRandbelow 10000 (inr d);
       EvPrint (str_int a ++ " " ++ str_int b ++ " " ++ str_int c ++ " " ++ str_int d);
       EvOpen "output.txt" (inr 0%nat);
       EvWrite 0 (str_int a ++ "," ++ str_int b ++ "," ++ str_int c ++ "," ++ str_int d)
               (inr tt);
       EvClose 0 (inr tt)].
Proof.
  assert (H : fst (run replay_randbelow env_fresh) = inr tt) by (vm_compute; reflexivity).
  split; [exact H | exact (successful_trace replay_randbelow env_fresh H)].
Defined.
